(** * handlebars-to-jsx: the expression resolver ([src/expressions.ts])

    A shallow embedding of the functions of [expressions.ts], which turn a
    Glimmer (Handlebars) syntax tree into a Babel syntax tree, and the
    properties of them that the specification states.

    - JavaScript strings are [string]s.  The only characters the code
      inspects are [{], [}] and [:], which are single code units in UTF-16 and
      single bytes in UTF-8, so a split at them cuts both encodings at the same
      places.
    - A JavaScript [throw] is the [Throw] case of [result]; [null] is [None].
    - The types of [@glimmer/syntax] and [@babel/types] that the file only
      passes along, and the functions imported from [./elements],
      [./blockStatements] and [./comments], are parameters. *)

From Stdlib Require Import String Ascii List Bool Arith Lia.
Import ListNotations.
Local Open Scope string_scope.
Local Open Scope list_scope.

Set Implicit Arguments.
Set Warnings "-register-all".

(** ** JavaScript: exceptions, arrays, [String.prototype.split] *)

Module JS.

(** The outcome of evaluating an expression that may throw. *)
Inductive result (E A : Type) : Type :=
| Return (a : A)
| Throw (e : E).
Arguments Return {E A} a.
Arguments Throw {E A} e.

Definition bind {E A B} (m : result E A) (k : A -> result E B) : result E B :=
  match m with
  | Return a => k a
  | Throw e => Throw e
  end.

(** [array.map(f)] where [f] may throw: elements are visited from the left
    and the first exception ends the traversal. *)
Definition mapM {E A B} (f : A -> result E B) : list A -> result E (list B) :=
  fix go (l : list A) : result E (list B) :=
    match l with
    | [] => Return []
    | x :: l' =>
        bind (f x) (fun y => bind (go l') (fun ys => Return (y :: ys)))
    end.

(** [array.reduce(f, init)] where [f] may throw. *)
Definition reduceM {E A B} (f : B -> A -> result E B)
  : list A -> B -> result E B :=
  fix go (l : list A) (acc : B) : result E B :=
    match l with
    | [] => Return acc
    | x :: l' => bind (f acc x) (go l')
    end.

(** [for (; steps turns left; i++) acc = body(i, acc)]: a loop of [steps] turns
    that counts up from [i]. *)
Fixpoint forLoop {E A} (steps i : nat) (body : nat -> A -> result E A)
  (acc : A) : result E A :=
  match steps with
  | 0 => Return acc
  | S steps' => bind (body i acc) (forLoop steps' (S i) body)
  end.

(** The regular expression [/(:?{|})/] tried at the start of [s]: the text
    its group captures and what follows the match.  The first alternative is
    an optional colon and an opening brace, the second a closing brace. *)
Definition delimiterAt (s : string) : option (string * string) :=
  match s with
  | EmptyString => None
  | String c rest =>
      if Ascii.eqb c ":" then
        match rest with
        | String c' rest' =>
            if Ascii.eqb c' "{" then Some (":{", rest') else None
        | EmptyString => None
        end
      else if Ascii.eqb c "{" then Some ("{", rest)
      else if Ascii.eqb c "}" then Some ("}", rest)
      else None
  end.

(** [text.split(/(:?{|})/)] from the current position: [run] is the text
    read since the last match.  At a match the run and the captured
    delimiter are both emitted; at the end the last run is emitted, empty
    or not. *)
Fixpoint splitFrom (run s : string) : list string :=
  match s with
  | EmptyString => [run]
  | String c rest =>
      if Ascii.eqb c ":" then
        match rest with
        | String c' rest' =>
            if Ascii.eqb c' "{" then run :: ":{" :: splitFrom "" rest'
            else splitFrom (run ++ String c "") rest
        | EmptyString => splitFrom (run ++ String c "") rest
        end
      else if Ascii.eqb c "{" then run :: "{" :: splitFrom "" rest
      else if Ascii.eqb c "}" then run :: "}" :: splitFrom "" rest
      else splitFrom (run ++ String c "") rest
  end.

Definition split (text : string) : list string := splitFrom "" text.

End JS.

Import JS.

Declare Scope js_scope.
Notation "x <- m ;; k" := (JS.bind m (fun x => k))
  (at level 61, m at next level, right associativity) : js_scope.
Local Open Scope js_scope.

(** ** The input tree: the [@glimmer/syntax] nodes the file reads *)

Module Glimmer.
Section AST.

(** JavaScript numbers, and the element and block nodes, whose fields only the
    collaborators read. *)
Variables number Element Block : Type.

(** What the property [original] of a node may hold. *)
Inductive Original : Type :=
| undefined
| null
| ofString (s : string)
| ofBoolean (b : bool)
| ofNumber (n : number).

(** The fields of a [PathExpression] that the file reads. *)
Record Path : Type := mkPath { original : string; parts : list string }.

Inductive Expression : Type :=
| SubExpression (path : Expression) (params : list Expression) (hash : Hash)
| PathExpression (p : Path)
| BooleanLiteral (value original : bool)
| NullLiteral
| NumberLiteral (value original : number)
| StringLiteral (value original : string)
| UndefinedLiteral
| OtherExpression (type : string) (original : Original)
with Hash : Type :=
| mkHash (pairs : list HashPair)
with HashPair : Type :=
| mkHashPair (key : string) (value : Expression).

Definition pairs (h : Hash) : list HashPair :=
  match h with mkHash l => l end.

Definition key (p : HashPair) : string :=
  match p with mkHashPair k _ => k end.

Definition value (p : HashPair) : Expression :=
  match p with mkHashPair _ v => v end.

(** [expression.original]: a sub-expression has no such property, the null
    and undefined literals hold [null] and [undefined] there. *)
Definition originalOf (e : Expression) : Original :=
  match e with
  | SubExpression _ _ _ => undefined
  | PathExpression p => ofString (original p)
  | BooleanLiteral _ o => ofBoolean o
  | NullLiteral => null
  | NumberLiteral _ o => ofNumber o
  | StringLiteral _ o => ofString o
  | UndefinedLiteral => undefined
  | OtherExpression _ o => o
  end.

(** Induction on an expression that reaches the operands of its
    sub-expressions: the path, the positional and the named arguments. *)
Section OperandsInduction.

Variable P : Expression -> Prop.

Hypothesis sub_expression :
  forall path params hash,
    P path -> Forall P params ->
    Forall (fun pair => P (value pair)) (pairs hash) ->
    P (SubExpression path params hash).
Hypothesis path_expression : forall p, P (PathExpression p).
Hypothesis boolean_literal : forall v o, P (BooleanLiteral v o).
Hypothesis null_literal : P NullLiteral.
Hypothesis number_literal : forall v o, P (NumberLiteral v o).
Hypothesis string_literal : forall v o, P (StringLiteral v o).
Hypothesis undefined_literal : P UndefinedLiteral.
Hypothesis other_expression : forall t o, P (OtherExpression t o).

Fixpoint Expression_operands_ind (e : Expression) : P e :=
  match e as e0 return P e0 with
  | SubExpression path params hash =>
      @sub_expression path params hash
        (Expression_operands_ind path)
        ((fix go (l : list Expression) : Forall P l :=
            match l with
            | [] => Forall_nil P
            | x :: l' => Forall_cons x (Expression_operands_ind x) (go l')
            end) params)
        (match hash as h
               return Forall (fun pair => P (value pair)) (pairs h) with
         | mkHash l =>
             (fix go (l : list HashPair)
                : Forall (fun pair => P (value pair)) l :=
                match l with
                | [] => Forall_nil _
                | named :: l' =>
                    Forall_cons named
                      (match named as p return P (value p) with
                       | mkHashPair _ v => Expression_operands_ind v
                       end)
                      (go l')
                end) l
         end)
  | PathExpression p => path_expression p
  | BooleanLiteral v o => boolean_literal v o
  | NullLiteral => null_literal
  | NumberLiteral v o => number_literal v o
  | StringLiteral v o => string_literal v o
  | UndefinedLiteral => undefined_literal
  | OtherExpression t o => other_expression t o
  end.

End OperandsInduction.

Inductive Statement : Type :=
| ElementNode (node : Element)
| TextNode (chars : string)
| MustacheStatement (path : Expression) (params : list Expression) (hash : Hash)
| BlockStatement (node : Block)
| MustacheCommentStatement (value : string)
| CommentStatement (value : string)
| OtherStatement (type : string).

End AST.

Arguments undefined {number}.
Arguments null {number}.
Arguments ofString {number} s.
Arguments ofBoolean {number} b.
Arguments ofNumber {number} n.
Arguments SubExpression {number} path params hash.
Arguments PathExpression {number} p.
Arguments BooleanLiteral {number} value original.
Arguments NullLiteral {number}.
Arguments NumberLiteral {number} value original.
Arguments StringLiteral {number} value original.
Arguments UndefinedLiteral {number}.
Arguments OtherExpression {number} type original.
Arguments mkHash {number} pairs.
Arguments mkHashPair {number} key value.
Arguments ElementNode {number Element Block} node.
Arguments TextNode {number Element Block} chars.
Arguments MustacheStatement {number Element Block} path params hash.
Arguments BlockStatement {number Element Block} node.
Arguments MustacheCommentStatement {number Element Block} value.
Arguments CommentStatement {number Element Block} value.
Arguments OtherStatement {number Element Block} type.

End Glimmer.

(** ** The output tree: the [@babel/types] builders the file calls *)

Module Babel.
Section Nodes.

(** JavaScript numbers, and the nodes that only the collaborators build.
    A builder is a constructor: the checks it makes of the kinds of its
    operands are not modelled.  The nodes that the functions of
    [expressions.ts] hand to the builders are of the kinds the builders
    take, but for [prependToPath], which may put a member expression where
    the property of a member expression goes; nothing is stated of it. *)
Variables number Foreign : Type.

Inductive Node : Type :=
| stringLiteral (value : string)
| booleanLiteral (value : bool)
| nullLiteral
| numericLiteral (value : number)
| identifier (name : string)
| memberExpression (object property : Node)
| callExpression (callee : Node) (arguments : list Node)
| objectExpression (properties : list Node)
| objectProperty (key value : Node)
| binaryExpression (operator : string) (left right : Node)
| jsxText (value : string)
| jsxExpressionContainer (expression : Node)
| foreign (node : Foreign).

End Nodes.

Arguments stringLiteral {number Foreign} value.
Arguments booleanLiteral {number Foreign} value.
Arguments nullLiteral {number Foreign}.
Arguments numericLiteral {number Foreign} value.
Arguments identifier {number Foreign} name.
Arguments memberExpression {number Foreign} object property.
Arguments callExpression {number Foreign} callee arguments.
Arguments objectExpression {number Foreign} properties.
Arguments objectProperty {number Foreign} key value.
Arguments binaryExpression {number Foreign} operator left right.
Arguments jsxText {number Foreign} value.
Arguments jsxExpressionContainer {number Foreign} expression.
Arguments foreign {number Foreign} node.

End Babel.

(** ** [expressions.ts] *)

Section Expressions.

Variables number Element Block Foreign : Type.

Abbreviation Expression := (Glimmer.Expression number).
Abbreviation Hash := (Glimmer.Hash number).
Abbreviation HashPair := (Glimmer.HashPair number).
Abbreviation Statement := (Glimmer.Statement number Element Block).
Abbreviation Node := (Babel.Node number Foreign).

(** What the file throws, by message, and what may reach it from elsewhere. *)
Inductive Error : Type :=
| TopLevelComment
    (* 'Top level comments currently is not supported' *)
| UnexpectedStatement (type : string)
    (* `Unexpected expression "${statement.type}"` *)
| UnexpectedExpression (expression : Expression)
    (* `Unexpected mustache statement: ${JSON.stringify(expression)}` *)
| EmptyParts
    (* 'Unexpected empty expression parts' *)
| TypeError
    (* the engine's error when an element read past the end of an array,
       which is undefined, is used as a node or as a name *)
| OtherError (message : string).

Abbreviation result := (JS.result Error).

(** [array[i]], then used where undefined is not accepted. *)
Definition at_index {A : Type} (l : list A) (i : nat) : result A :=
  match nth_error l i with
  | Some x => Return x
  | None => Throw TypeError
  end.

(** [Number.prototype.toString], and the functions imported from
    [./elements], [./blockStatements] and [./comments]. *)
Variable Number_toString : number -> string.
Variable convertElement : Element -> result Node.
Variable createFragment : list Node -> result Node.
Variable resolveBlockStatement : Block -> result Node.
Variable createComment : Statement -> result Node.

(** [original?.toString() ?? 'undefined'] *)
Definition calleeName (original : Glimmer.Original number) : string :=
  match original with
  | Glimmer.undefined => "undefined"
  | Glimmer.null => "undefined"
  | Glimmer.ofString s => s
  | Glimmer.ofBoolean b => if b then "true" else "false"
  | Glimmer.ofNumber n => Number_toString n
  end.

Definition appendToPath (path append : Node) : Node :=
  Babel.memberExpression path append.

Definition prependToPath (path prepend : Node) : Node :=
  Babel.memberExpression prepend path.

Definition createPath (pathExpression : Glimmer.Path) : result Node :=
  let parts := Glimmer.parts pathExpression in
  if (List.length parts =? 0)%nat then Throw EmptyParts
  else
    first <- at_index parts 0 ;;
    forLoop (List.length parts - 1) 1
      (fun i acc =>
         part <- at_index parts i ;;
         Return (appendToPath acc (Babel.identifier part)))
      (Babel.identifier first).

(** The body of [resolveHelper], over the resolver of its operands: the
    fields [path], [params] and [hash] are those of the mustache statement or
    sub-expression it is given. *)
Definition resolveHelperWith (resolve : Expression -> result Node)
  (path : Expression) (params : list Expression) (hash : Hash) : result Node :=
  params' <- mapM resolve params ;;
  properties <-
    mapM (fun pair =>
            value <- resolve (Glimmer.value pair) ;;
            Return (Babel.objectProperty
                      (Babel.stringLiteral (Glimmer.key pair)) value))
         (Glimmer.pairs hash) ;;
  let hash' := Babel.objectExpression properties in
  let options :=
    Babel.objectExpression
      [Babel.objectProperty (Babel.stringLiteral "hash") hash'] in
  Return (Babel.callExpression
            (Babel.identifier (calleeName (Glimmer.originalOf path)))
            (params' ++ [options])).

Fixpoint resolveExpression (expression : Expression) : result Node :=
  match expression with
  | Glimmer.SubExpression path params hash =>
      resolveHelperWith resolveExpression path params hash
  | Glimmer.PathExpression p => createPath p
  | Glimmer.BooleanLiteral value _ => Return (Babel.booleanLiteral value)
  | Glimmer.NullLiteral => Return Babel.nullLiteral
  | Glimmer.NumberLiteral value _ => Return (Babel.numericLiteral value)
  | Glimmer.StringLiteral value _ => Return (Babel.stringLiteral value)
  | Glimmer.UndefinedLiteral => Return (Babel.identifier "undefined")
  | Glimmer.OtherExpression _ _ => Throw (UnexpectedExpression expression)
  end.

Definition resolveHelper (path : Expression) (params : list Expression)
  (hash : Hash) : result Node :=
  resolveHelperWith resolveExpression path params hash.

Definition resolveStatement (statement : Statement) : result Node :=
  match statement with
  | Glimmer.ElementNode node => convertElement node
  | Glimmer.TextNode chars => Return (Babel.stringLiteral chars)
  | Glimmer.MustacheStatement path params hash =>
      if (0 <? List.length params)%nat then resolveHelper path params hash
      else resolveExpression path
  | Glimmer.BlockStatement node => resolveBlockStatement node
  | Glimmer.MustacheCommentStatement _ => Throw TopLevelComment
  | Glimmer.CommentStatement _ => Throw TopLevelComment
  | Glimmer.OtherStatement type => Throw (UnexpectedStatement type)
  end.

(** What [resolveElementChild] and [prepareJsxText] return: one node, or an
    array of nodes. *)
Inductive Child : Type :=
| One (node : Node)
| Many (nodes : list Node).

Definition isBrace (item : string) : bool :=
  String.eqb item "{" || String.eqb item "}".

(** The function that [prepareJsxText] maps over the parts of the text. *)
Definition jsxPart (item : string) : Node :=
  if isBrace item
  then Babel.jsxExpressionContainer (Babel.stringLiteral item)
  else Babel.jsxText item.

Definition prepareJsxText (text : string) : Child :=
  let parts := JS.split text in
  if (List.length parts =? 1)%nat then One (Babel.jsxText text)
  else Many (map jsxPart parts).

Definition resolveElementChild (statement : Statement) : result Child :=
  match statement with
  | Glimmer.ElementNode node =>
      element <- convertElement node ;; Return (One element)
  | Glimmer.TextNode chars => Return (prepareJsxText chars)
  | Glimmer.MustacheCommentStatement _
  | Glimmer.CommentStatement _ =>
      comment <- createComment statement ;; Return (One comment)
  | _ =>
      expression <- resolveStatement statement ;;
      Return (One (Babel.jsxExpressionContainer expression))
  end.

Definition createChildren (body : list Statement) : result (list Node) :=
  reduceM
    (fun acc statement =>
       child <- resolveElementChild statement ;;
       Return (match child with
               | Many nodes => acc ++ nodes
               | One node => acc ++ [node]
               end))
    body [].

Definition createRootChildren (body : list Statement) : result Node :=
  if (List.length body =? 1)%nat
  then statement <- at_index body 0 ;; resolveStatement statement
  else children <- createChildren body ;; createFragment children.

(** The accumulator of the reduction starts as [null], here [None]. *)
Definition createConcat (parts : list Statement) : result (option Node) :=
  reduceM
    (fun acc item =>
       match acc with
       | None => resolved <- resolveStatement item ;; Return (Some resolved)
       | Some acc' =>
           resolved <- resolveStatement item ;;
           Return (Some (Babel.binaryExpression "+" acc' resolved))
       end)
    parts None.

(** ** What the properties are stated with *)

(** Splitting at every brace, each brace a piece of its own. *)
Fixpoint splitBracesFrom (run s : string) : list string :=
  match s with
  | EmptyString => [run]
  | String c rest =>
      if Ascii.eqb c "{" || Ascii.eqb c "}"
      then run :: String c "" :: splitBracesFrom "" rest
      else splitBracesFrom (run ++ String c "") rest
  end.

Definition splitBraces (text : string) : list string :=
  splitBracesFrom "" text.

(** No opening brace of the text comes right after a colon. *)
Fixpoint noColonBrace (s : string) : bool :=
  match s with
  | EmptyString => true
  | String c rest =>
      match rest with
      | String c' _ =>
          negb (Ascii.eqb c ":" && Ascii.eqb c' "{") && noColonBrace rest
      | EmptyString => true
      end
  end.

(** A brace character. *)
Definition brace (c : ascii) : Prop := c = "{"%char \/ c = "}"%char.

(** The run read so far is the start of the first piece. *)
Definition prependRun (run : string) (pieces : list string) : list string :=
  match pieces with
  | [] => []
  | piece :: pieces' => (run ++ piece)%string :: pieces'
  end.

(** The properties of the record under ["hash"]: each named argument's key,
    as a string literal, with the value it resolved to. *)
Definition hashProperties (pairs : list HashPair) (values : list Node)
  : list Node :=
  map (fun pv =>
         Babel.objectProperty
           (Babel.stringLiteral (Glimmer.key (fst pv))) (snd pv))
      (combine pairs values).

(** The last argument of a helper call. *)
Definition hashCarrier (properties : list Node) : Node :=
  Babel.objectExpression
    [Babel.objectProperty (Babel.stringLiteral "hash")
       (Babel.objectExpression properties)].

(** [original] is unset: [undefined] or [null]. *)
Definition unset (original : Glimmer.Original number) : Prop :=
  original = Glimmer.undefined \/ original = Glimmer.null.

(** Either kind of comment. *)
Definition isComment (statement : Statement) : bool :=
  match statement with
  | Glimmer.MustacheCommentStatement _ | Glimmer.CommentStatement _ => true
  | _ => false
  end.

(** A brace occurs in the string. *)
Fixpoint containsBrace (s : string) : bool :=
  match s with
  | EmptyString => false
  | String c rest =>
      Ascii.eqb c "{" || Ascii.eqb c "}" || containsBrace rest
  end.

(** What the regular expression of [prepareJsxText] can capture. *)
Definition isDelimiter (piece : string) : bool :=
  String.eqb piece "{" || String.eqb piece "}" || String.eqb piece ":{".

(** Pieces that go run, delimiter, run, ..., run, the runs without a brace. *)
Fixpoint alternating (pieces : list string) : bool :=
  match pieces with
  | [] => false
  | [run] => negb (containsBrace run)
  | run :: delimiter :: pieces' =>
      negb (containsBrace run) && isDelimiter delimiter && alternating pieces'
  end.

(** The nodes of a child, one or many. *)
Definition childNodes (child : Child) : list Node :=
  match child with
  | One node => [node]
  | Many nodes => nodes
  end.

(** The characters that a node made by [prepareJsxText] stands for. *)
Definition nodeText (node : Node) : string :=
  match node with
  | Babel.jsxText value => value
  | Babel.jsxExpressionContainer (Babel.stringLiteral value) => value
  | _ => ""
  end.

(** A markup text without a brace in it. *)
Definition isPlainText (node : Node) : bool :=
  match node with
  | Babel.jsxText value => negb (containsBrace value)
  | _ => false
  end.

(** A brace as a string literal in an expression container. *)
Definition isEscapedBrace (node : Node) : bool :=
  match node with
  | Babel.jsxExpressionContainer (Babel.stringLiteral value) => isBrace value
  | _ => false
  end.

(** The markup text of a colon and an opening brace. *)
Definition isColonBraceText (node : Node) : bool :=
  match node with
  | Babel.jsxText value => String.eqb value ":{"
  | _ => false
  end.

(** Nodes that go text, delimiter, text, ..., text: the texts are plain and
    a delimiter satisfies [delimiter]. *)
Fixpoint alternatingNodes (delimiter : Node -> bool) (nodes : list Node)
  : bool :=
  match nodes with
  | [] => false
  | [text] => isPlainText text
  | text :: node :: nodes' =>
      isPlainText text && delimiter node && alternatingNodes delimiter nodes'
  end.

(** The evaluation returned, rather than threw. *)
Definition returns {A : Type} (r : result A) : bool :=
  match r with
  | Return _ => true
  | Throw _ => false
  end.

(** Every path among the operands has a segment, and every operand is of a
    kind that [resolveExpression] knows.  The path of a sub-expression is not
    an operand: only its [original] is read. *)
Fixpoint resolvable (expression : Expression) : bool :=
  match expression with
  | Glimmer.SubExpression _ params hash =>
      forallb resolvable params
      && forallb (fun pair => resolvable (Glimmer.value pair))
           (Glimmer.pairs hash)
  | Glimmer.PathExpression p =>
      negb (List.length (Glimmer.parts p) =? 0)%nat
  | Glimmer.OtherExpression _ _ => false
  | _ => true
  end.

(** The names along a chain of member accesses that starts at an
    identifier. *)
Fixpoint pathSegments (node : Node) : option (list string) :=
  match node with
  | Babel.identifier name => Some [name]
  | Babel.memberExpression object (Babel.identifier name) =>
      option_map (fun names => names ++ [name]) (pathSegments object)
  | _ => None
  end.


(** ** Strings and [split] *)

Lemma append_empty_r (s : string) : (s ++ "")%string = s.
Proof.
  induction s as [|c s IH]; simpl; [reflexivity | now rewrite IH].
Qed.

Lemma append_assoc (a b c : string) :
  ((a ++ b) ++ c)%string = (a ++ (b ++ c))%string.
Proof.
  induction a as [|x a IH]; simpl; [reflexivity | now rewrite IH].
Qed.

Lemma prependRun_prependRun (a b : string) (l : list string) :
  prependRun a (prependRun b l) = prependRun (a ++ b) l.
Proof.
  destruct l as [|h t]; simpl; [reflexivity | now rewrite append_assoc].
Qed.

Lemma splitFrom_run_upto (n : nat) :
  forall s run, String.length s <= n ->
    splitFrom run s = prependRun run (split s).
Proof.
  unfold split.
  induction n as [|n IH]; intros s run Hn.
  - destruct s; simpl in Hn; [|lia]. simpl. now rewrite append_empty_r.
  - destruct s as [|c rest]; [simpl; now rewrite append_empty_r|].
    simpl in Hn.
    assert (Hrest : forall r,
               splitFrom (r ++ String c "") rest
               = prependRun r (splitFrom (String c "") rest)).
    { intros r. rewrite (IH rest (r ++ String c "")%string) by lia.
      rewrite (IH rest (String c "")) by lia.
      now rewrite prependRun_prependRun. }
    simpl. destruct (Ascii.eqb c ":").
    + destruct rest as [|c' rest'].
      * reflexivity.
      * destruct (Ascii.eqb c' "{").
        -- simpl. now rewrite append_empty_r.
        -- apply Hrest.
    + destruct (Ascii.eqb c "{"); [simpl; now rewrite append_empty_r|].
      destruct (Ascii.eqb c "}"); [simpl; now rewrite append_empty_r|].
      apply Hrest.
Qed.

Lemma splitFrom_run (s run : string) :
  splitFrom run s = prependRun run (split s).
Proof.
  apply (splitFrom_run_upto (n := String.length s)). lia.
Qed.

(** [split] follows the matches of the regular expression. *)
Lemma splitFrom_delimiterAt (run s : string) :
  splitFrom run s =
  match delimiterAt s with
  | Some (delimiter, rest) => run :: delimiter :: splitFrom "" rest
  | None =>
      match s with
      | EmptyString => [run]
      | String c rest => splitFrom (run ++ String c "") rest
      end
  end.
Proof.
  destruct s as [|c rest]; [reflexivity|]. simpl.
  destruct (Ascii.eqb c ":").
  - destruct rest as [|c' rest']; [reflexivity|].
    now destruct (Ascii.eqb c' "{").
  - destruct (Ascii.eqb c "{"); [reflexivity|].
    now destruct (Ascii.eqb c "}").
Qed.

Lemma brace_not_colon (d : ascii) : brace d -> Ascii.eqb d ":" = false.
Proof. intros [-> | ->]; reflexivity. Qed.

Lemma brace_eqb (d : ascii) :
  brace d -> Ascii.eqb d "{" || Ascii.eqb d "}" = true.
Proof. intros [-> | ->]; reflexivity. Qed.

Lemma splitFrom_brace (run rest : string) (d : ascii) :
  brace d -> splitFrom run (String d rest) = run :: String d "" :: split rest.
Proof. intros [-> | ->]; reflexivity. Qed.

Lemma splitFrom_before_brace_upto (n : nat) :
  forall (s1 run : string) (d : ascii),
    String.length s1 <= n -> brace d ->
    exists ps, ps <> [] /\ forall rest,
      splitFrom run (s1 ++ String d rest) = ps ++ split rest.
Proof.
  induction n as [|n IH]; intros s1 run d Hn Hd.
  - destruct s1; simpl in Hn; [|lia].
    exists [run; String d ""]. split; [discriminate|]. intros rest. now apply splitFrom_brace.
  - destruct s1 as [|c s1'].
    + exists [run; String d ""]. split; [discriminate|]. intros rest. now apply splitFrom_brace.
    + simpl in Hn.
      destruct (IH s1' (run ++ String c "")%string d) as [ps1 [Hne1 Hps1]];
        [lia | assumption |].
      change ((String c s1' ++ String d ?r)%string)
        with (String c (s1' ++ String d r)%string).
      destruct (Ascii.eqb c ":") eqn:Hc.
      * destruct s1' as [|c' s1''].
        -- destruct Hd as [-> | ->].
           ++ exists [run; ":{"]. split; [discriminate|]. intros rest. simpl. now rewrite Hc.
           ++ exists [(run ++ String c "")%string; "}"]. split; [discriminate|]. intros rest.
              simpl. now rewrite Hc.
        -- destruct (Ascii.eqb c' "{") eqn:Hc'.
           ++ simpl in Hn.
              destruct (IH s1'' "" d) as [ps2 [Hne2 Hps2]]; [lia | assumption |].
              exists (run :: ":{" :: ps2). split; [discriminate|]. intros rest.
              simpl. rewrite Hc, Hc'. simpl. now rewrite Hps2.
           ++ exists ps1. split; [assumption|]. intros rest. rewrite <- Hps1.
              simpl. now rewrite Hc, Hc'.
      * destruct (Ascii.eqb c "{") eqn:Hl.
        -- destruct (IH s1' "" d) as [ps2 [Hne2 Hps2]]; [lia | assumption |].
           exists (run :: "{" :: ps2). split; [discriminate|]. intros rest.
           simpl. rewrite Hc, Hl. simpl. now rewrite Hps2.
        -- destruct (Ascii.eqb c "}") eqn:Hr.
           ++ destruct (IH s1' "" d) as [ps2 [Hne2 Hps2]]; [lia | assumption |].
              exists (run :: "}" :: ps2). split; [discriminate|]. intros rest.
              simpl. rewrite Hc, Hl, Hr. simpl. now rewrite Hps2.
           ++ exists ps1. split; [assumption|]. intros rest. rewrite <- Hps1.
              simpl. now rewrite Hc, Hl, Hr.
Qed.

Lemma split_before_brace (s1 : string) (d : ascii) :
  brace d ->
  exists ps, ps <> [] /\
    forall rest, split (s1 ++ String d rest) = ps ++ split rest.
Proof.
  intros Hd. unfold split at 1.
  apply (splitFrom_before_brace_upto (n := String.length s1)); [lia | assumption].
Qed.

(** The pieces, put together again, are the text: [split] loses nothing. *)
Lemma splitFrom_joined_upto (n : nat) :
  forall s run, String.length s <= n ->
    fold_right String.append "" (splitFrom run s) = (run ++ s)%string.
Proof.
  induction n as [|n IH]; intros s run Hn.
  - destruct s; simpl in Hn; [|lia]. simpl. now rewrite append_empty_r.
  - destruct s as [|c rest]; [simpl; now rewrite append_empty_r|].
    simpl in Hn.
    assert (Hrest : fold_right String.append ""
                      (splitFrom (run ++ String c "") rest)
                    = (run ++ String c rest)%string).
    { rewrite IH by lia. now rewrite append_assoc. }
    simpl. destruct (Ascii.eqb c ":") eqn:Hc.
    + apply Ascii.eqb_eq in Hc. subst c.
      destruct rest as [|c' rest']; [exact Hrest|].
      destruct (Ascii.eqb c' "{") eqn:Hc'; [|exact Hrest].
      apply Ascii.eqb_eq in Hc'. subst c'. simpl in Hn. simpl.
      now rewrite IH by lia.
    + destruct (Ascii.eqb c "{") eqn:Hl.
      * apply Ascii.eqb_eq in Hl. subst c. simpl. now rewrite IH by lia.
      * destruct (Ascii.eqb c "}") eqn:Hr; [|exact Hrest].
        apply Ascii.eqb_eq in Hr. subst c. simpl. now rewrite IH by lia.
Qed.

Lemma split_joined (text : string) :
  fold_right String.append "" (split text) = text.
Proof.
  apply (splitFrom_joined_upto (n := String.length text) text ""). lia.
Qed.

Lemma noColonBrace_tail (c : ascii) (rest : string) :
  noColonBrace (String c rest) = true -> noColonBrace rest = true.
Proof.
  destruct rest as [|c' rest']; [reflexivity|].
  intros H. change (negb (Ascii.eqb c ":" && Ascii.eqb c' "{")
                    && noColonBrace (String c' rest') = true) in H.
  now apply andb_true_iff in H.
Qed.

(** Where no opening brace follows a colon, [split] cuts at the braces and
    nowhere else. *)
Lemma splitFrom_splitBracesFrom (s : string) :
  forall run, noColonBrace s = true ->
    splitFrom run s = splitBracesFrom run s.
Proof.
  induction s as [|c rest IH]; intros run H; [reflexivity|].
  pose proof (noColonBrace_tail _ _ H) as Hrest.
  simpl. destruct (Ascii.eqb c ":") eqn:Hc.
  - apply Ascii.eqb_eq in Hc. subst c. simpl.
    destruct rest as [|c' rest']; [reflexivity|].
    change (negb (true && Ascii.eqb c' "{")
            && noColonBrace (String c' rest') = true) in H.
    destruct (Ascii.eqb c' "{"); [discriminate H|].
    now apply IH.
  - destruct (Ascii.eqb c "{") eqn:Hl.
    + apply Ascii.eqb_eq in Hl. subst c. simpl. now rewrite IH.
    + destruct (Ascii.eqb c "}") eqn:Hr.
      * apply Ascii.eqb_eq in Hr. subst c. simpl. now rewrite IH.
      * simpl. now apply IH.
Qed.

Lemma split_splitBraces (text : string) :
  noColonBrace text = true -> split text = splitBraces text.
Proof. apply splitFrom_splitBracesFrom. Qed.

Lemma jsxPart_empty : jsxPart "" = Babel.jsxText "".
Proof. reflexivity. Qed.

Lemma jsxPart_brace (d : ascii) :
  brace d ->
  jsxPart (String d "")
  = Babel.jsxExpressionContainer (Babel.stringLiteral (String d "")).
Proof. intros [-> | ->]; reflexivity. Qed.

(** ** [prepareJsxText] *)

(** On a text where no opening brace follows a colon, [prepareJsxText] is the
    splitter of the specification: the pieces are those of [splitBraces],
    the braces wrapped, the rest as text. *)
Lemma prepareJsxText_splitBraces (text : string) :
  noColonBrace text = true ->
  prepareJsxText text =
  if (List.length (splitBraces text) =? 1)%nat then One (Babel.jsxText text)
  else Many (map jsxPart (splitBraces text)).
Proof.
  intros H. unfold prepareJsxText. now rewrite split_splitBraces.
Qed.

Lemma prepareJsxText_a_b_c :
  prepareJsxText "a{b}c"
  = Many [Babel.jsxText "a";
          Babel.jsxExpressionContainer (Babel.stringLiteral "{");
          Babel.jsxText "b";
          Babel.jsxExpressionContainer (Babel.stringLiteral "}");
          Babel.jsxText "c"].
Proof. reflexivity. Qed.

Lemma prepareJsxText_no_braces :
  prepareJsxText "no braces" = One (Babel.jsxText "no braces").
Proof. reflexivity. Qed.

(** C1, at a text where it fails.  The claim has every brace of the text a
    piece of its own, wrapped in an expression container: for the text
    [a:{b] that is the pieces [a:], [{], [b] of [splitBraces].  The regular
    expression of [prepareJsxText] takes a colon before an opening brace into
    the delimiter, so the code cuts the text into [a], [:{], [b]; the middle
    piece is neither of the two braces and is left as markup text with the
    brace in it. *)
Theorem prepareJsxText_colon_brace :
  splitBraces "a:{b" = ["a:"; "{"; "b"] /\
  prepareJsxText "a:{b"
  = Many [Babel.jsxText "a"; Babel.jsxText ":{"; Babel.jsxText "b"].
Proof. split; reflexivity. Qed.

(** C9.  The empty pieces that [split] yields around the braces are kept as
    empty text nodes, in their places: between two adjacent braces, before a
    brace that starts the text, and after a brace that ends it. *)
Theorem prepareJsxText_keeps_empty_parts :
  forall (s1 s2 : string) (d1 d2 : ascii),
    brace d1 -> brace d2 ->
    (exists ps,
        split (s1 ++ String d1 "") = ps ++ [""] /\
        prepareJsxText (s1 ++ String d1 (String d2 s2))
        = Many (map jsxPart ps
                  ++ Babel.jsxText ""
                  :: Babel.jsxExpressionContainer
                       (Babel.stringLiteral (String d2 ""))
                  :: map jsxPart (split s2)))
    /\ prepareJsxText (String d1 s2)
       = Many (Babel.jsxText ""
                 :: Babel.jsxExpressionContainer
                      (Babel.stringLiteral (String d1 ""))
                 :: map jsxPart (split s2))
    /\ (exists nodes,
          prepareJsxText (s1 ++ String d1 "")
          = Many (nodes ++ [Babel.jsxText ""])).
Proof.
  intros s1 s2 d1 d2 H1 H2.
  destruct (split_before_brace s1 H1) as [ps [Hne Hps]].
  assert (Hlen : forall l : list string,
             (List.length (ps ++ l) =? 1)%nat = false \/ l = []).
  { intros l. destruct l as [|x l]; [now right | left].
    apply Nat.eqb_neq. rewrite length_app. simpl.
    destruct ps; [contradiction | simpl; lia]. }
  split; [|split].
  - exists ps. split; [apply Hps|].
    unfold prepareJsxText. rewrite Hps.
    unfold split at 1 2. rewrite (splitFrom_brace "" s2 H2).
    destruct (Hlen ("" :: String d2 "" :: split s2)) as [-> | H];
      [|discriminate H].
    rewrite map_app. simpl. now rewrite jsxPart_brace.
  - unfold prepareJsxText, split at 1 2.
    rewrite (splitFrom_brace "" s2 H1). simpl.
    now rewrite jsxPart_brace.
  - exists (map jsxPart ps).
    unfold prepareJsxText. rewrite Hps.
    destruct (Hlen (split "")) as [-> | H]; [|discriminate H].
    now rewrite map_app.
Qed.

(** ** Arrays *)

Lemma mapM_Return {E A B : Type} (f : A -> JS.result E B)
  (l : list A) (rs : list B) :
  Forall2 (fun x r => f x = Return r) l rs -> mapM f l = Return rs.
Proof.
  induction 1 as [|x r l rs Hx _ IH]; [reflexivity|].
  simpl. rewrite Hx. simpl. now rewrite IH.
Qed.

Lemma mapM_Throw {E A B : Type} (f : A -> JS.result E B)
  (l : list A) (e : E) :
  mapM f l = Throw e -> exists x, In x l /\ f x = Throw e.
Proof.
  induction l as [|x l IH]; simpl; [discriminate|].
  destruct (f x) as [y|e'] eqn:Hx; simpl.
  - destruct (mapM f l) as [ys|e'']; simpl; [discriminate|].
    intros H. destruct (IH H) as [x' [Hin Hx']].
    exists x'. split; [now right | assumption].
  - intros H. injection H as ->. exists x. split; [now left | assumption].
Qed.

Lemma at_index_app {A : Type} (pre rest : list A) (x : A) :
  at_index (pre ++ x :: rest) (List.length pre) = Return x.
Proof.
  unfold at_index. rewrite nth_error_app2 by lia.
  now rewrite Nat.sub_diag.
Qed.

(** ** [createPath] *)

Lemma createPath_loop (rest : list string) :
  forall (pre : list string) (acc : Node),
    forLoop (List.length rest) (List.length pre)
      (fun i acc' =>
         part <- at_index (pre ++ rest) i ;;
         Return (appendToPath acc' (Babel.identifier part)))
      acc
    = Return (fold_left
                (fun acc' part =>
                   Babel.memberExpression acc' (Babel.identifier part))
                rest acc).
Proof.
  induction rest as [|x rest IH]; intros pre acc; [reflexivity|].
  simpl forLoop. rewrite at_index_app. simpl.
  specialize (IH (pre ++ [x]) (appendToPath acc (Babel.identifier x))).
  rewrite <- app_assoc, length_app, Nat.add_comm in IH. exact IH.
Qed.

(** C3.  A path of one or more segments: the first is an identifier, and
    every further one is a member access on what was built so far. *)
Theorem createPath_left_associative :
  forall (original first : string) (rest : list string),
    createPath (Glimmer.mkPath original (first :: rest))
    = Return (fold_left
                (fun acc part =>
                   Babel.memberExpression acc (Babel.identifier part))
                rest (Babel.identifier first)).
Proof.
  intros original first rest. unfold createPath. simpl.
  rewrite Nat.sub_0_r.
  exact (createPath_loop rest [first] (Babel.identifier first)).
Qed.

Lemma createPath_a_b_c (original a b c : string) :
  createPath (Glimmer.mkPath original [a]) = Return (Babel.identifier a) /\
  createPath (Glimmer.mkPath original [a; b])
  = Return (Babel.memberExpression (Babel.identifier a) (Babel.identifier b))
  /\
  createPath (Glimmer.mkPath original [a; b; c])
  = Return (Babel.memberExpression
              (Babel.memberExpression (Babel.identifier a)
                 (Babel.identifier b))
              (Babel.identifier c)).
Proof. repeat split. Qed.

(** C4.  A path with no segment throws, and returns no expression. *)
Theorem createPath_empty :
  forall pathExpression : Glimmer.Path,
    Glimmer.parts pathExpression = [] ->
    createPath pathExpression = Throw EmptyParts /\
    forall expression : Node, createPath pathExpression <> Return expression.
Proof.
  intros pathExpression H. unfold createPath. rewrite H. simpl.
  split; [reflexivity | discriminate].
Qed.

(** ** [resolveHelper] *)

Lemma resolveExpression_SubExpression (path : Expression)
  (params : list Expression) (hash : Hash) :
  resolveExpression (Glimmer.SubExpression path params hash)
  = resolveHelper path params hash.
Proof. reflexivity. Qed.


Lemma mapM_hash (pairs : list HashPair) (values : list Node) :
  Forall2 (fun pair value =>
             resolveExpression (Glimmer.value pair) = Return value)
          pairs values ->
  mapM (fun pair =>
          value <- resolveExpression (Glimmer.value pair) ;;
          Return (Babel.objectProperty
                    (Babel.stringLiteral (Glimmer.key pair)) value))
       pairs
  = Return (hashProperties pairs values).
Proof.
  induction 1 as [|pair value pairs values Hv _ IH]; [reflexivity|].
  simpl. rewrite Hv. simpl. now rewrite IH.
Qed.

Lemma resolveHelper_Return (path : Expression) (params : list Expression)
  (hash : Hash) (args values : list Node) :
  Forall2 (fun param arg => resolveExpression param = Return arg)
          params args ->
  Forall2 (fun pair value =>
             resolveExpression (Glimmer.value pair) = Return value)
          (Glimmer.pairs hash) values ->
  resolveHelper path params hash
  = Return (Babel.callExpression
              (Babel.identifier (calleeName (Glimmer.originalOf path)))
              (args ++ [hashCarrier
                          (hashProperties (Glimmer.pairs hash) values)])).
Proof.
  intros Hparams Hhash. unfold resolveHelper, resolveHelperWith.
  rewrite (mapM_Return _ Hparams). simpl.
  now rewrite (mapM_hash Hhash).
Qed.

Lemma resolveHelper_Throw (path : Expression) (params : list Expression)
  (hash : Hash) (e : Error) :
  resolveHelper path params hash = Throw e ->
  exists operand,
    (In operand params \/ In operand (map (@Glimmer.value number)
                                          (Glimmer.pairs hash)))
    /\ resolveExpression operand = Throw e.
Proof.
  unfold resolveHelper, resolveHelperWith.
  destruct (mapM resolveExpression params) as [args|e'] eqn:Hparams; simpl.
  - match goal with
    | |- context [mapM ?f (Glimmer.pairs hash)] =>
        destruct (mapM f (Glimmer.pairs hash)) as [props|e'] eqn:Hhash
    end; simpl; [discriminate|].
    intros H. injection H as ->.
    destruct (mapM_Throw _ _ Hhash) as [pair [Hin Hpair]].
    exists (Glimmer.value pair). split.
    + right. now apply in_map.
    + destruct (resolveExpression (Glimmer.value pair));
        [discriminate Hpair | exact Hpair].
  - intros H. injection H as ->.
    destruct (mapM_Throw _ _ Hparams) as [param [Hin Hparam]].
    exists param. split; [now left | assumption].
Qed.

(** C2.  When the positional arguments and the values of the named ones
    resolve, the call's arguments are the resolved positional arguments, in
    order, and then the record under ["hash"] of the named ones, one more
    argument than the positional ones; with no named argument, that record
    is empty. *)
Theorem resolveHelper_arguments :
  forall (path : Expression) (params : list Expression) (hash : Hash)
         (args values : list Node),
    Forall2 (fun param arg => resolveExpression param = Return arg)
            params args ->
    Forall2 (fun pair value =>
               resolveExpression (Glimmer.value pair) = Return value)
            (Glimmer.pairs hash) values ->
    exists arguments,
      resolveHelper path params hash
      = Return (Babel.callExpression
                  (Babel.identifier (calleeName (Glimmer.originalOf path)))
                  arguments)
      /\ arguments
         = args ++ [Babel.objectExpression
                      [Babel.objectProperty (Babel.stringLiteral "hash")
                         (Babel.objectExpression
                            (hashProperties (Glimmer.pairs hash) values))]]
      /\ List.length arguments = S (List.length params)
      /\ (Glimmer.pairs hash = [] ->
          last arguments Babel.nullLiteral
          = Babel.objectExpression
              [Babel.objectProperty (Babel.stringLiteral "hash")
                 (Babel.objectExpression [])]).
Proof.
  intros path params hash args values Hparams Hhash.
  eexists. split; [|split; [reflexivity|split]].
  - exact (resolveHelper_Return path hash Hparams Hhash).
  - rewrite length_app, (Forall2_length Hparams). simpl. lia.
  - intros Hnil. rewrite last_last, Hnil. reflexivity.
Qed.

(** C8.  When the [original] of the path is unset the callee is the
    identifier [undefined]; and whatever [resolveHelper] throws, for any
    path, was thrown by the resolution of one of its operands. *)
Theorem resolveHelper_callee_undefined :
  forall (path : Expression) (params : list Expression) (hash : Hash),
    unset (Glimmer.originalOf path) ->
    (forall args values : list Node,
        Forall2 (fun param arg => resolveExpression param = Return arg)
                params args ->
        Forall2 (fun pair value =>
                   resolveExpression (Glimmer.value pair) = Return value)
                (Glimmer.pairs hash) values ->
        resolveHelper path params hash
        = Return (Babel.callExpression (Babel.identifier "undefined")
                    (args ++ [hashCarrier
                                (hashProperties (Glimmer.pairs hash)
                                   values)])))
    /\ (forall e : Error,
          resolveHelper path params hash = Throw e ->
          exists operand,
            (In operand params
             \/ In operand (map (@Glimmer.value number) (Glimmer.pairs hash)))
            /\ resolveExpression operand = Throw e).
Proof.
  intros path params hash Hunset. split.
  - intros args values Hparams Hhash.
    rewrite (resolveHelper_Return path hash Hparams Hhash).
    now destruct Hunset as [-> | ->].
  - intros e. apply resolveHelper_Throw.
Qed.

(** ** [resolveStatement], [resolveElementChild] *)

(** C5.  A comment of either kind makes [resolveStatement] throw the error
    of top-level comments; [resolveElementChild] hands it to
    [createComment] and returns what that returns. *)
Theorem comment_statement_and_child :
  forall statement : Statement,
    isComment statement = true ->
    resolveStatement statement = Throw TopLevelComment
    /\ resolveElementChild statement
       = (comment <- createComment statement ;; Return (One comment))
    /\ (forall comment : Node,
          createComment statement = Return comment ->
          resolveElementChild statement = Return (One comment)).
Proof.
  intros statement H.
  destruct statement; try discriminate H;
    (split; [reflexivity | split; [reflexivity|]]);
    intros comment Hc; simpl; now rewrite Hc.
Qed.

(** ** [createRootChildren], [createConcat] *)

(** C6.  A body of one statement is resolved as that statement. *)
Theorem createRootChildren_single :
  forall statement : Statement,
    createRootChildren [statement] = resolveStatement statement.
Proof. reflexivity. Qed.

Lemma createConcat_loop (rest : list Statement) (resolved : list Node) :
  Forall2 (fun item node => resolveStatement item = Return node)
          rest resolved ->
  forall acc : Node,
    reduceM
      (fun acc item =>
         match acc with
         | None => node <- resolveStatement item ;; Return (Some node)
         | Some acc' =>
             node <- resolveStatement item ;;
             Return (Some (Babel.binaryExpression "+" acc' node))
         end)
      rest (Some acc)
    = Return (Some (fold_left (Babel.binaryExpression "+") resolved acc)).
Proof.
  induction 1 as [|item node rest resolved Hitem _ IH]; intros acc;
    [reflexivity|].
  simpl. rewrite Hitem. simpl. apply IH.
Qed.

(** C7.  When the parts resolve, the first resolved part is the accumulator
    and every further one is added to it on the right by [+]. *)
Theorem createConcat_left_fold :
  forall (first : Statement) (rest : list Statement)
         (node : Node) (resolved : list Node),
    resolveStatement first = Return node ->
    Forall2 (fun item node' => resolveStatement item = Return node')
            rest resolved ->
    createConcat (first :: rest)
    = Return (Some (fold_left (Babel.binaryExpression "+") resolved node)).
Proof.
  intros first rest node resolved Hfirst Hrest.
  unfold createConcat. simpl. rewrite Hfirst. simpl.
  now apply createConcat_loop.
Qed.

Lemma createConcat_a_b_c (a b c : Statement) (ra rb rc : Node) :
  resolveStatement a = Return ra ->
  resolveStatement b = Return rb ->
  resolveStatement c = Return rc ->
  createConcat [a; b; c]
  = Return (Some (Babel.binaryExpression "+"
                    (Babel.binaryExpression "+" ra rb) rc)).
Proof.
  intros Ha Hb Hc. unfold createConcat. simpl.
  rewrite Ha. simpl. rewrite Hb. simpl. now rewrite Hc.
Qed.

(** C10.  With no part the reduction returns its initial value, [null]:
    neither an expression nor an error. *)
Theorem createConcat_empty :
  createConcat [] = Return None.
Proof. reflexivity. Qed.

(** ** More on [split] and [prepareJsxText] *)

Lemma list_pair_ind {A : Type} (P : list A -> Prop) :
  P [] -> (forall x, P [x]) -> (forall x y l, P l -> P (x :: y :: l)) ->
  forall l, P l.
Proof.
  intros Hnil Hone Hstep l.
  assert (H : P l /\ forall x, P (x :: l)).
  { induction l as [|y l [IH1 IH2]]; [now split|].
    split; [apply IH2|]. intros x. now apply Hstep. }
  apply H.
Qed.

Lemma containsBrace_append (a b : string) :
  containsBrace (a ++ b) = containsBrace a || containsBrace b.
Proof.
  induction a as [|c a IH]; simpl; [reflexivity|].
  rewrite IH. now rewrite orb_assoc.
Qed.

Lemma prependRun_length (run : string) (pieces : list string) :
  List.length (prependRun run pieces) = List.length pieces.
Proof. now destruct pieces. Qed.

Lemma splitFrom_alternating_upto (n : nat) :
  forall s run, String.length s <= n -> containsBrace run = false ->
    alternating (splitFrom run s) = true.
Proof.
  induction n as [|n IH]; intros s run Hn Hrun.
  - destruct s; simpl in Hn; [|lia]. simpl. now rewrite Hrun.
  - destruct s as [|c rest]; [simpl; now rewrite Hrun|].
    simpl in Hn.
    assert (Hemit : forall d rest', String.length rest' <= n ->
               isDelimiter d = true ->
               alternating (run :: d :: splitFrom "" rest') = true).
    { intros d rest' Hlen Hd.
      change (negb (containsBrace run) && isDelimiter d
              && alternating (splitFrom "" rest') = true).
      rewrite Hrun, Hd. simpl. now apply IH. }
    assert (Hrest : Ascii.eqb c "{" = false -> Ascii.eqb c "}" = false ->
               alternating (splitFrom (run ++ String c "") rest) = true).
    { intros Hl Hr. apply IH; [lia|].
      rewrite containsBrace_append, Hrun. simpl. now rewrite Hl, Hr. }
    simpl. destruct (Ascii.eqb c ":") eqn:Hc.
    + apply Ascii.eqb_eq in Hc. subst c.
      destruct rest as [|c' rest']; [now apply Hrest|].
      destruct (Ascii.eqb c' "{"); [|now apply Hrest].
      simpl in Hn. apply Hemit; [lia | reflexivity].
    + destruct (Ascii.eqb c "{") eqn:Hl; [apply Hemit; [lia | reflexivity]|].
      destruct (Ascii.eqb c "}") eqn:Hr; [apply Hemit; [lia | reflexivity]|].
      now apply Hrest.
Qed.

Lemma alternating_odd (pieces : list string) :
  alternating pieces = true -> Nat.odd (List.length pieces) = true.
Proof.
  induction pieces as [| x | x y l IH] using list_pair_ind;
    [discriminate | reflexivity |].
  intros H.
  change (negb (containsBrace x) && isDelimiter y && alternating l = true)
    in H.
  apply andb_true_iff in H. destruct H as [_ H].
  change (Nat.odd (S (S (List.length l))) = true).
  rewrite Nat.odd_succ_succ. now apply IH.
Qed.

Lemma splitFrom_no_brace (s : string) :
  forall run, containsBrace s = false -> splitFrom run s = [(run ++ s)%string].
Proof.
  induction s as [|c rest IH]; intros run H;
    [simpl; now rewrite append_empty_r|].
  simpl in H. apply orb_false_iff in H. destruct H as [H Hrest].
  apply orb_false_iff in H. destruct H as [Hl Hr].
  assert (Hgo : splitFrom (run ++ String c "") rest
                = [(run ++ String c rest)%string]).
  { rewrite (IH _ Hrest). now rewrite append_assoc. }
  simpl. rewrite Hl, Hr. destruct (Ascii.eqb c ":"); [|exact Hgo].
  destruct rest as [|c' rest']; [exact Hgo|].
  simpl in Hrest. destruct (Ascii.eqb c' "{"); [discriminate Hrest|exact Hgo].
Qed.

Lemma split_length_brace (s : string) :
  forall run, containsBrace s = true -> 3 <= List.length (splitFrom run s).
Proof.
  assert (Hne : forall t, 1 <= List.length (splitFrom "" t)).
  { intros t.
    pose proof (alternating_odd _
                  (@splitFrom_alternating_upto (String.length t) t ""
                     (le_n _) eq_refl)) as Hodd.
    destruct (splitFrom "" t); [discriminate Hodd | simpl; lia]. }
  induction s as [|c rest IH]; intros run H; [discriminate H|].
  simpl in H. simpl.
  destruct (Ascii.eqb c ":") eqn:Hc.
  - apply Ascii.eqb_eq in Hc. subst c. simpl in H.
    destruct rest as [|c' rest']; [discriminate H|].
    destruct (Ascii.eqb c' "{").
    + simpl. pose proof (Hne rest'). lia.
    + now apply IH.
  - destruct (Ascii.eqb c "{"); [simpl; pose proof (Hne rest); lia|].
    destruct (Ascii.eqb c "}"); [simpl; pose proof (Hne rest); lia|].
    now apply IH.
Qed.

Lemma split_alternating (text : string) : alternating (split text) = true.
Proof.
  exact (@splitFrom_alternating_upto (String.length text) text ""
           (le_n _) eq_refl).
Qed.

Lemma nodeText_jsxPart (item : string) : nodeText (jsxPart item) = item.
Proof. unfold jsxPart. now destruct (isBrace item). Qed.

Lemma isBrace_containsBrace (item : string) :
  isBrace item = true -> containsBrace item = true.
Proof.
  unfold isBrace. intros H. apply orb_true_iff in H.
  destruct H as [H | H]; apply String.eqb_eq in H; now subst item.
Qed.

Lemma jsxPart_run (run : string) :
  containsBrace run = false -> jsxPart run = Babel.jsxText run.
Proof.
  intros H. unfold jsxPart. destruct (isBrace run) eqn:Hb; [|reflexivity].
  apply isBrace_containsBrace in Hb. congruence.
Qed.

Lemma jsxPart_delimiter (d : string) :
  isDelimiter d = true ->
  isEscapedBrace (jsxPart d) || isColonBraceText (jsxPart d) = true.
Proof.
  unfold isDelimiter. intros H.
  apply orb_true_iff in H. destruct H as [H | H].
  - apply orb_true_iff in H.
    destruct H as [H | H]; apply String.eqb_eq in H; now subst d.
  - apply String.eqb_eq in H. now subst d.
Qed.

Lemma map_jsxPart_alternating (pieces : list string) :
  alternating pieces = true ->
  alternatingNodes (fun node => isEscapedBrace node || isColonBraceText node)
    (map jsxPart pieces) = true.
Proof.
  induction pieces as [| x | x y l IH] using list_pair_ind;
    [discriminate | |].
  - simpl. intros H. apply negb_true_iff in H.
    rewrite (jsxPart_run _ H). simpl. now rewrite H.
  - intros H.
    change (negb (containsBrace x) && isDelimiter y && alternating l = true)
      in H.
    apply andb_true_iff in H. destruct H as [H Hl].
    apply andb_true_iff in H. destruct H as [Hx Hy].
    apply negb_true_iff in Hx.
    change (isPlainText (jsxPart x)
            && (isEscapedBrace (jsxPart y) || isColonBraceText (jsxPart y))
            && alternatingNodes
                 (fun node => isEscapedBrace node || isColonBraceText node)
                 (map jsxPart l) = true).
    rewrite (jsxPart_run _ Hx), (jsxPart_delimiter _ Hy), (IH Hl).
    simpl. now rewrite Hx.
Qed.

Lemma map_jsxPart_splitBracesFrom (s : string) :
  forall run, containsBrace run = false ->
    alternatingNodes isEscapedBrace (map jsxPart (splitBracesFrom run s))
    = true.
Proof.
  induction s as [|c rest IH]; intros run Hrun.
  - simpl. rewrite (jsxPart_run _ Hrun). simpl. now rewrite Hrun.
  - simpl. destruct (Ascii.eqb c "{" || Ascii.eqb c "}") eqn:Hc.
    + change (isPlainText (jsxPart run)
              && isEscapedBrace (jsxPart (String c ""))
              && alternatingNodes isEscapedBrace
                   (map jsxPart (splitBracesFrom "" rest)) = true).
      rewrite (jsxPart_run _ Hrun), (IH "" eq_refl).
      apply orb_true_iff in Hc.
      destruct Hc as [Hc | Hc]; apply Ascii.eqb_eq in Hc; subst c;
        simpl; now rewrite Hrun.
    + apply IH. rewrite containsBrace_append, Hrun. simpl.
      now rewrite orb_false_r.
Qed.

(** X1.  The characters of the nodes that [prepareJsxText] returns, put
    together in order, are the text it was given. *)
Theorem prepareJsxText_text_preserved :
  forall text : string,
    fold_right String.append ""
      (map nodeText (childNodes (prepareJsxText text)))
    = text.
Proof.
  intros text. unfold prepareJsxText.
  destruct (List.length (split text) =? 1)%nat.
  - simpl. apply append_empty_r.
  - simpl. rewrite map_map.
    rewrite (map_ext _ (fun item => item) nodeText_jsxPart), map_id.
    apply split_joined.
Qed.

Lemma prepareJsxText_without_brace (text : string) :
  containsBrace text = false ->
  prepareJsxText text = One (Babel.jsxText text).
Proof.
  intros H. unfold prepareJsxText, split.
  now rewrite (splitFrom_no_brace text "" H).
Qed.

Lemma prepareJsxText_with_brace (text : string) :
  containsBrace text = true ->
  prepareJsxText text = Many (map jsxPart (split text))
  /\ 3 <= List.length (split text).
Proof.
  intros H. pose proof (split_length_brace text "" H) as Hlen.
  fold (split text) in Hlen. unfold prepareJsxText.
  destruct (Nat.eqb_spec (List.length (split text)) 1) as [E | _]; [lia|].
  now split.
Qed.

(** X2.  A text without a brace comes back as the one text node of the
    whole text; a text with a brace as an array of an odd number of nodes,
    three at least. *)
Theorem prepareJsxText_shape :
  forall text : string,
    if containsBrace text
    then exists nodes,
        prepareJsxText text = Many nodes
        /\ 3 <= List.length nodes
        /\ Nat.odd (List.length nodes) = true
    else prepareJsxText text = One (Babel.jsxText text).
Proof.
  intros text. destruct (containsBrace text) eqn:H.
  - destruct (prepareJsxText_with_brace text H) as [Hmany Hlen].
    exists (map jsxPart (split text)). rewrite length_map.
    split; [exact Hmany | split; [exact Hlen|]].
    apply alternating_odd, split_alternating.
  - now apply prepareJsxText_without_brace.
Qed.

(** X3.  The nodes that [prepareJsxText] returns go text, delimiter, text,
    ..., text.  No text among them has a brace in it; a delimiter is a brace
    in an expression container, or the markup text of a colon and an opening
    brace. *)
Theorem prepareJsxText_nodes_alternate :
  forall text : string,
    alternatingNodes
      (fun node => isEscapedBrace node || isColonBraceText node)
      (childNodes (prepareJsxText text))
    = true.
Proof.
  intros text. destruct (containsBrace text) eqn:H.
  - rewrite (proj1 (prepareJsxText_with_brace text H)). simpl.
    apply map_jsxPart_alternating, split_alternating.
  - rewrite (prepareJsxText_without_brace text H). simpl. now rewrite H.
Qed.

(** X4.  Where no opening brace of the text follows a colon, every brace of
    the text is escaped: the delimiters among the nodes are all braces in
    expression containers, and no text has a brace in it. *)
Theorem prepareJsxText_escapes_every_brace :
  forall text : string,
    noColonBrace text = true ->
    alternatingNodes isEscapedBrace (childNodes (prepareJsxText text))
    = true.
Proof.
  intros text Hcolon. destruct (containsBrace text) eqn:H.
  - rewrite (proj1 (prepareJsxText_with_brace text H)). simpl.
    rewrite (split_splitBraces _ Hcolon).
    now apply map_jsxPart_splitBracesFrom.
  - rewrite (prepareJsxText_without_brace text H). simpl. now rewrite H.
Qed.

(** ** More on [resolveExpression] and [resolveHelper] *)

Lemma returns_mapM {E A B : Type} (f : A -> JS.result E B) (l : list A) :
  (exists rs, mapM f l = Return rs)
  <-> Forall (fun x => exists r, f x = Return r) l.
Proof.
  induction l as [|x l IH]; simpl.
  - split; [constructor | intros _; now exists []].
  - split.
    + intros [rs H]. destruct (f x) as [y|e] eqn:Hx; [|discriminate H].
      simpl in H. destruct (mapM f l) as [ys|e]; [|discriminate H].
      constructor; [now exists y | apply IH; now exists ys].
    + intros H. inversion H as [|x' l' [y Hx] Hl]; subst.
      apply IH in Hl. destruct Hl as [ys Hys].
      exists (y :: ys). rewrite Hx. simpl. now rewrite Hys.
Qed.

Lemma resolveHelper_returns (path : Expression) (params : list Expression)
  (hash : Hash) :
  (exists node, resolveHelper path params hash = Return node)
  <-> Forall (fun param => exists r, resolveExpression param = Return r)
        params
      /\ Forall (fun pair =>
                   exists r, resolveExpression (Glimmer.value pair) = Return r)
           (Glimmer.pairs hash).
Proof.
  unfold resolveHelper, resolveHelperWith. split.
  - intros [node H].
    destruct (mapM resolveExpression params) as [args|e] eqn:Hparams;
      [|discriminate H].
    simpl in H.
    match type of H with
    | context [mapM ?f (Glimmer.pairs hash)] =>
        destruct (mapM f (Glimmer.pairs hash)) as [props|e] eqn:Hhash
    end; [|discriminate H].
    split.
    + apply returns_mapM. now exists args.
    + assert (Hex : exists rs,
                 mapM (fun pair =>
                         value <- resolveExpression (Glimmer.value pair) ;;
                         Return (Babel.objectProperty
                                   (Babel.stringLiteral (Glimmer.key pair))
                                   value))
                      (Glimmer.pairs hash) = Return rs)
        by now exists props.
      apply returns_mapM in Hex.
      eapply Forall_impl; [|exact Hex].
      intros pair [r Hr]. simpl in Hr.
      destruct (resolveExpression (Glimmer.value pair)) as [v|e];
        [now exists v | discriminate Hr].
  - intros [Hparams Hhash].
    apply returns_mapM in Hparams. destruct Hparams as [args ->]. simpl.
    assert (Hex : exists rs,
               mapM (fun pair =>
                       value <- resolveExpression (Glimmer.value pair) ;;
                       Return (Babel.objectProperty
                                 (Babel.stringLiteral (Glimmer.key pair))
                                 value))
                    (Glimmer.pairs hash) = Return rs).
    { apply returns_mapM. eapply Forall_impl; [|exact Hhash].
      intros pair [r Hr]. simpl. rewrite Hr. simpl. eauto. }
    destruct Hex as [props ->]. simpl. eauto.
Qed.

Lemma createPath_segments (p : Glimmer.Path) (first : string)
  (rest : list string) :
  Glimmer.parts p = first :: rest ->
  createPath p
  = Return (fold_left
              (fun acc part =>
                 Babel.memberExpression acc (Babel.identifier part))
              rest (Babel.identifier first)).
Proof.
  intros H. unfold createPath. rewrite H. simpl. rewrite Nat.sub_0_r.
  exact (createPath_loop rest [first] (Babel.identifier first)).
Qed.

Lemma createPath_Throw (p : Glimmer.Path) (e : Error) :
  createPath p = Throw e -> e = EmptyParts /\ Glimmer.parts p = [].
Proof.
  destruct (Glimmer.parts p) as [|first rest] eqn:H.
  - unfold createPath. rewrite H. simpl. intros E. injection E as <-.
    now split.
  - rewrite (createPath_segments p H). discriminate.
Qed.

Lemma resolveExpression_returns (expression : Expression) :
  (exists node, resolveExpression expression = Return node)
  <-> resolvable expression = true.
Proof.
  induction expression
    as [path params hash _ IHparams IHhash | p | | | | | |]
    using Glimmer.Expression_operands_ind;
    try (simpl; split; [reflexivity | eauto]).
  - rewrite resolveExpression_SubExpression, resolveHelper_returns.
    simpl. rewrite andb_true_iff, !forallb_forall, !Forall_forall.
    rewrite Forall_forall in IHparams, IHhash.
    split; intros [H1 H2]; split; intros x Hx.
    + now apply IHparams, H1.
    + now apply IHhash, H2.
    + now apply IHparams, H1.
    + now apply IHhash, H2.
  - simpl. destruct (Glimmer.parts p) as [|first rest] eqn:H.
    + unfold createPath. rewrite H. simpl.
      split; [intros [node E]; discriminate E | discriminate].
    + rewrite (createPath_segments p H). simpl.
      split; [reflexivity | eauto].
  - simpl. split; [intros [node E]; discriminate E | discriminate].
Qed.

Lemma returns_true {A : Type} (r : result A) :
  returns r = true <-> exists a, r = Return a.
Proof.
  destruct r as [a|e]; simpl.
  - split; [eauto | reflexivity].
  - split; [discriminate | intros [a H]; discriminate H].
Qed.

(** X5.  [resolveExpression] returns a node exactly for the expressions in
    which every operand is of a known kind and every path among the operands
    has a segment.  The path of a sub-expression does not count: a helper
    named by a path without segments still resolves to a call. *)
Theorem resolveExpression_returns_iff_resolvable :
  forall expression : Expression,
    returns (resolveExpression expression) = resolvable expression.
Proof.
  intros expression. apply eq_true_iff_eq.
  rewrite returns_true. apply resolveExpression_returns.
Qed.

(** X6.  Whatever [resolveExpression] throws is the error of a path without
    segments or the error of an expression of an unknown kind, and that
    expression is one of an unknown kind. *)
Theorem resolveExpression_errors :
  forall (expression : Expression) (e : Error),
    resolveExpression expression = Throw e ->
    e = EmptyParts
    \/ exists type original,
        e = UnexpectedExpression (Glimmer.OtherExpression type original).
Proof.
  induction expression
    as [path params hash _ IHparams IHhash | p | | | | | | type original]
    using Glimmer.Expression_operands_ind;
    intros e H; try discriminate H.
  - rewrite resolveExpression_SubExpression in H.
    apply resolveHelper_Throw in H.
    destruct H as [operand [[Hin | Hin] Hoperand]].
    + rewrite Forall_forall in IHparams. exact (IHparams _ Hin _ Hoperand).
    + apply in_map_iff in Hin. destruct Hin as [pair [<- Hin]].
      rewrite Forall_forall in IHhash. exact (IHhash _ Hin _ Hoperand).
  - left. now apply (createPath_Throw p).
  - right. simpl in H. injection H as <-. eauto.
Qed.

Lemma mapM_Return_inv {E A B : Type} (f : A -> JS.result E B)
  (l : list A) :
  forall rs, mapM f l = Return rs ->
    Forall2 (fun x r => f x = Return r) l rs.
Proof.
  induction l as [|x l IH]; simpl; intros rs H.
  - injection H as <-. constructor.
  - destruct (f x) as [y|e] eqn:Hx; [|discriminate H]. simpl in H.
    destruct (mapM f l) as [ys|e]; [|discriminate H]. simpl in H.
    injection H as <-. constructor; [exact Hx | now apply IH].
Qed.


(** X15.  When [resolveHelper] returns, every positional argument and the
    value of every named argument resolved, and the node is the call of the
    identifier of the path's [original] with the resolved positional
    arguments and then the record under ["hash"], which has one property for
    each named argument, in order. *)
Theorem resolveHelper_Return_inv :
  forall (path : Expression) (params : list Expression) (hash : Hash)
         (node : Node),
    resolveHelper path params hash = Return node ->
    exists args values,
      Forall2 (fun param arg => resolveExpression param = Return arg)
              params args
      /\ Forall2 (fun pair value =>
                    resolveExpression (Glimmer.value pair) = Return value)
                 (Glimmer.pairs hash) values
      /\ node
         = Babel.callExpression
             (Babel.identifier (calleeName (Glimmer.originalOf path)))
             (args ++ [hashCarrier
                         (hashProperties (Glimmer.pairs hash) values)]).
Proof.
  intros path params hash node H.
  assert (Hret : exists n, resolveHelper path params hash = Return n)
    by eauto.
  apply resolveHelper_returns in Hret. destruct Hret as [Hparams Hhash].
  apply returns_mapM in Hparams. destruct Hparams as [args Hargs].
  apply mapM_Return_inv in Hargs.
  apply (returns_mapM (E := Error)) in Hhash.
  destruct Hhash as [values Hvalues].
  apply mapM_Return_inv in Hvalues.
  exists args, values. split; [exact Hargs | split; [exact Hvalues|]].
  rewrite (resolveHelper_Return path hash Hargs Hvalues) in H.
  now injection H as <-.
Qed.

(** ** More on [createPath] *)

Lemma pathSegments_fold (rest : list string) :
  forall acc : Node,
    pathSegments
      (fold_left
         (fun acc' part =>
            Babel.memberExpression acc' (Babel.identifier part))
         rest acc)
    = option_map (fun names => names ++ rest) (pathSegments acc).
Proof.
  induction rest as [|x rest IH]; intros acc; simpl.
  - destruct (pathSegments acc); simpl; [now rewrite app_nil_r | reflexivity].
  - rewrite IH. simpl. destruct (pathSegments acc); simpl; [|reflexivity].
    now rewrite <- app_assoc.
Qed.

(** X7.  The node that [createPath] returns is a chain of member accesses
    whose names, read from the identifier outwards, are the segments of the
    path; and it throws only for a path without segments. *)
Theorem createPath_pathSegments :
  forall p : Glimmer.Path,
    match createPath p with
    | Return node => pathSegments node = Some (Glimmer.parts p)
    | Throw _ => Glimmer.parts p = []
    end.
Proof.
  intros p. destruct (Glimmer.parts p) as [|first rest] eqn:H.
  - unfold createPath. rewrite H. reflexivity.
  - rewrite (createPath_segments p H). now rewrite pathSegments_fold.
Qed.

(** X8.  Appending a segment to a built path is building the path with
    that segment at its end. *)
Theorem appendToPath_createPath :
  forall (p : Glimmer.Path) (node : Node) (original segment : string),
    createPath p = Return node ->
    createPath (Glimmer.mkPath original (Glimmer.parts p ++ [segment]))
    = Return (appendToPath node (Babel.identifier segment)).
Proof.
  intros p node original segment H.
  destruct (Glimmer.parts p) as [|first rest] eqn:Hparts.
  - unfold createPath in H. rewrite Hparts in H. discriminate H.
  - rewrite (createPath_segments p Hparts) in H. injection H as <-.
    rewrite (@createPath_segments
               (Glimmer.mkPath original ((first :: rest) ++ [segment]))
               first (rest ++ [segment]) eq_refl).
    now rewrite fold_left_app.
Qed.

(** ** More on [createChildren], [createRootChildren], [createConcat] *)

Lemma reduceM_app {E A B : Type} (f : B -> A -> JS.result E B)
  (xs ys : list A) :
  forall acc,
    reduceM f (xs ++ ys) acc = JS.bind (reduceM f xs acc) (reduceM f ys).
Proof.
  induction xs as [|x xs IH]; intros acc; [reflexivity|].
  simpl. destruct (f acc x) as [acc'|e]; simpl; [apply IH | reflexivity].
Qed.

(** The children gathered before the reduction reaches [body] stay in front
    of those of [body]. *)
Lemma createChildren_from (body : list Statement) :
  forall acc : list Node,
    reduceM
      (fun acc' statement =>
         child <- resolveElementChild statement ;;
         Return (match child with
                 | Many nodes => acc' ++ nodes
                 | One node => acc' ++ [node]
                 end))
      body acc
    = (children <- createChildren body ;; Return (acc ++ children)).
Proof.
  unfold createChildren.
  induction body as [|statement body IH]; intros acc.
  - simpl. now rewrite app_nil_r.
  - simpl. destruct (resolveElementChild statement) as [child|e]; simpl;
      [|reflexivity].
    rewrite IH. rewrite (IH (match child with
                             | One node => [node]
                             | Many nodes => nodes
                             end)).
    destruct (reduceM _ body []) as [children|e]; simpl; [|reflexivity].
    destruct child; now rewrite <- app_assoc.
Qed.

Lemma createChildren_cons (statement : Statement) (body : list Statement) :
  createChildren (statement :: body)
  = (child <- resolveElementChild statement ;;
     children <- createChildren body ;;
     Return (childNodes child ++ children)).
Proof.
  unfold createChildren at 1. simpl.
  destruct (resolveElementChild statement) as [child|e]; simpl;
    [|reflexivity].
  rewrite createChildren_from. now destruct child.
Qed.



(** X9.  The children of two bodies one after the other are the children of
    the first followed by those of the second, and what the first throws,
    or else the second, is thrown. *)
Theorem createChildren_app :
  forall body1 body2 : list Statement,
    createChildren (body1 ++ body2)
    = (children1 <- createChildren body1 ;;
       children2 <- createChildren body2 ;;
       Return (children1 ++ children2)).
Proof.
  intros body1 body2. unfold createChildren at 1.
  rewrite reduceM_app. fold (createChildren body1).
  destruct (createChildren body1) as [children1|e]; simpl; [|reflexivity].
  apply createChildren_from.
Qed.


Lemma createConcat_from_Some (parts : list Statement) :
  forall acc : Node,
    reduceM
      (fun acc' item =>
         match acc' with
         | None => node <- resolveStatement item ;; Return (Some node)
         | Some acc'' =>
             node <- resolveStatement item ;;
             Return (Some (Babel.binaryExpression "+" acc'' node))
         end)
      parts (Some acc)
    <> Return None.
Proof.
  induction parts as [|item parts IH]; intros acc; [discriminate|].
  simpl. destruct (resolveStatement item) as [node|e]; simpl;
    [apply IH | discriminate].
Qed.

(** X11.  [createConcat] returns [null] for no part only: with a part or
    more it returns an expression or throws. *)
Theorem createConcat_null_iff_empty :
  forall parts : list Statement,
    createConcat parts = Return None <-> parts = [].
Proof.
  intros parts. split; [|now intros ->].
  destruct parts as [|item parts]; [reflexivity|].
  unfold createConcat. simpl.
  destruct (resolveStatement item) as [node|e]; simpl; [|discriminate].
  intros H. now apply createConcat_from_Some in H.
Qed.

Lemma createConcat_Throw_from (before : list Statement) (failing : Statement)
  (after : list Statement) (e : Error) :
  Forall (fun item => exists node, resolveStatement item = Return node)
         before ->
  resolveStatement failing = Throw e ->
  forall acc : option Node,
    reduceM
      (fun acc' item =>
         match acc' with
         | None => node <- resolveStatement item ;; Return (Some node)
         | Some acc'' =>
             node <- resolveStatement item ;;
             Return (Some (Babel.binaryExpression "+" acc'' node))
         end)
      (before ++ failing :: after) acc
    = Throw e.
Proof.
  intros Hbefore Hfailing.
  induction Hbefore as [|item before [node Hitem] _ IH]; intros acc.
  - simpl. rewrite Hfailing. now destruct acc.
  - simpl. rewrite Hitem. destruct acc; simpl; apply IH.
Qed.

(** X12.  [createConcat] throws what the first part that does not resolve
    throws; the parts after it are not resolved. *)
Theorem createConcat_first_failure :
  forall (before : list Statement) (failing : Statement)
         (after : list Statement) (e : Error),
    Forall (fun item => exists node, resolveStatement item = Return node)
           before ->
    resolveStatement failing = Throw e ->
    createConcat (before ++ failing :: after) = Throw e.
Proof.
  intros before failing after e Hbefore Hfailing.
  now apply createConcat_Throw_from.
Qed.

(** X13.  A comment that is the whole body is an error, whatever
    [createComment] would make of it; a comment with more statements after
    it is converted by [createComment] and becomes the first child of the
    fragment. *)
Theorem createRootChildren_comment :
  forall (comment other : Statement) (rest : list Statement),
    isComment comment = true ->
    createRootChildren [comment] = Throw TopLevelComment
    /\ createRootChildren (comment :: other :: rest)
       = (node <- createComment comment ;;
          children <- createChildren (other :: rest) ;;
          createFragment (node :: children)).
Proof.
  intros comment other rest H.
  split; [destruct comment; try discriminate H; reflexivity|].
  unfold createRootChildren.
  change (List.length (comment :: other :: rest) =? 1)%nat with false.
  cbv iota. rewrite createChildren_cons.
  assert (Hchild : resolveElementChild comment
                   = (node <- createComment comment ;; Return (One node)))
    by (destruct comment; try discriminate H; reflexivity).
  rewrite Hchild.
  destruct (createComment comment) as [node|e]; simpl; [|reflexivity].
  now destruct (createChildren (other :: rest)).
Qed.

End Expressions.

Arguments TopLevelComment {number}.
Arguments UnexpectedStatement {number} type.
Arguments UnexpectedExpression {number} expression.
Arguments EmptyParts {number}.
Arguments TypeError {number}.
Arguments OtherError {number} message.
Arguments One {number Foreign} node.
Arguments Many {number Foreign} nodes.
Arguments createPath {number Foreign} pathExpression.
Arguments prepareJsxText {number Foreign} text.
Arguments jsxPart {number Foreign} item.
Arguments resolveExpression {number Foreign} Number_toString expression.
Arguments resolveHelper {number Foreign} Number_toString path params hash.

(** ** The theorems at work

    Numbers are taken as [nat], printed in unary; the element, block and
    foreign nodes as [unit]; the element and block converters throw, and the
    comment converter wraps the comment's text. *)

Import Glimmer Babel.

Lemma resolveHelper_arguments_witness :
  resolveHelper (Foreign := unit) (fun n : nat => String.concat "" (repeat "1" n))
    (PathExpression (mkPath "join" ["join"]))
    [StringLiteral "x" "x"; PathExpression (mkPath "a.b" ["a"; "b"])]
    (mkHash [mkHashPair "k" (NumberLiteral 2 2)])
  = Return (callExpression (identifier "join")
              [stringLiteral "x";
               memberExpression (identifier "a") (identifier "b");
               objectExpression
                 [objectProperty (stringLiteral "hash")
                    (objectExpression
                       [objectProperty (stringLiteral "k")
                          (numericLiteral 2)])]]).
Proof.
  destruct (@resolveHelper_arguments nat unit
              (fun n : nat => String.concat "" (repeat "1" n))
              (PathExpression (mkPath "join" ["join"]))
              [StringLiteral "x" "x"; PathExpression (mkPath "a.b" ["a"; "b"])]
              (mkHash [mkHashPair "k" (NumberLiteral 2 2)])
              [stringLiteral "x";
               memberExpression (identifier "a") (identifier "b")]
              [numericLiteral 2])
    as [arguments [H [-> _]]].
  - repeat constructor.
  - repeat constructor.
  - exact H.
Defined.

Lemma createPath_empty_witness :
  createPath (number := nat) (Foreign := unit) (mkPath "" [])
  = Throw EmptyParts.
Proof.
  exact (proj1 (@createPath_empty nat unit (mkPath "" []) eq_refl)).
Defined.

Lemma comment_statement_and_child_witness :
  resolveStatement (Element := unit) (Block := unit) (Foreign := unit)
    (fun n : nat => String.concat "" (repeat "1" n))
    (fun _ => Throw (OtherError "element"))
    (fun _ => Throw (OtherError "block"))
    (CommentStatement "note")
  = Throw TopLevelComment
  /\ resolveElementChild (Element := unit) (Block := unit) (Foreign := unit)
       (fun n : nat => String.concat "" (repeat "1" n))
       (fun _ => Throw (OtherError "element"))
       (fun _ => Throw (OtherError "block"))
       (fun _ => Return (jsxExpressionContainer (stringLiteral "note")))
       (CommentStatement "note")
     = Return (One (jsxExpressionContainer (stringLiteral "note"))).
Proof.
  destruct (@comment_statement_and_child nat unit unit unit
              (fun n : nat => String.concat "" (repeat "1" n))
              (fun _ => Throw (OtherError "element"))
              (fun _ => Throw (OtherError "block"))
              (fun _ => Return (jsxExpressionContainer (stringLiteral "note")))
              (CommentStatement "note") eq_refl)
    as [Hstatement [_ Hchild]].
  split; [exact Hstatement | exact (Hchild _ eq_refl)].
Defined.

Lemma createConcat_left_fold_witness :
  createConcat (Element := unit) (Block := unit) (Foreign := unit)
    (fun n : nat => String.concat "" (repeat "1" n))
    (fun _ => Throw (OtherError "element"))
    (fun _ => Throw (OtherError "block"))
    [TextNode "a";
     MustacheStatement (PathExpression (mkPath "b" ["b"])) [] (mkHash []);
     TextNode "c"]
  = Return (Some (binaryExpression "+"
                    (binaryExpression "+" (stringLiteral "a") (identifier "b"))
                    (stringLiteral "c"))).
Proof.
  apply (@createConcat_left_fold nat unit unit unit
           (fun n : nat => String.concat "" (repeat "1" n))
           (fun _ => Throw (OtherError "element"))
           (fun _ => Throw (OtherError "block"))
           (TextNode "a")
           [MustacheStatement (PathExpression (mkPath "b" ["b"])) []
              (mkHash []);
            TextNode "c"]
           (stringLiteral "a")
           [identifier "b"; stringLiteral "c"]).
  - reflexivity.
  - repeat constructor.
Defined.

Lemma resolveHelper_callee_undefined_witness :
  resolveHelper (Foreign := unit) (fun n : nat => String.concat "" (repeat "1" n))
    NullLiteral [StringLiteral "x" "x"] (mkHash [])
  = Return (callExpression (identifier "undefined")
              [stringLiteral "x";
               objectExpression
                 [objectProperty (stringLiteral "hash")
                    (objectExpression [])]]).
Proof.
  apply (proj1 (@resolveHelper_callee_undefined nat unit
                  (fun n : nat => String.concat "" (repeat "1" n))
                  NullLiteral [StringLiteral "x" "x"] (mkHash [])
                  (or_intror eq_refl))
           [stringLiteral "x"] []).
  - repeat constructor.
  - constructor.
Defined.

Lemma prepareJsxText_keeps_empty_parts_witness :
  prepareJsxText (number := nat) (Foreign := unit) "a{}b"
  = Many [jsxText "a";
          jsxExpressionContainer (stringLiteral "{");
          jsxText "";
          jsxExpressionContainer (stringLiteral "}");
          jsxText "b"]
  /\ prepareJsxText (number := nat) (Foreign := unit) "{b"
     = Many [jsxText "";
             jsxExpressionContainer (stringLiteral "{");
             jsxText "b"]
  /\ exists nodes,
       prepareJsxText (number := nat) (Foreign := unit) "a{"
       = Many (nodes ++ [jsxText ""]).
Proof.
  destruct (@prepareJsxText_keeps_empty_parts nat unit "a" "b" "{" "}"
              (or_introl eq_refl) (or_intror eq_refl))
    as [[ps [Hps Hbetween]] [Hstart Hend]].
  assert (Hps' : ps = ["a"; "{"]).
  { apply (app_inj_tail ps ["a"; "{"] "" "" (eq_sym Hps)). }
  subst ps.
  split; [exact Hbetween | split; [exact Hstart | exact Hend]].
Defined.

Arguments alternatingNodes {number Foreign} delimiter nodes.
Arguments isEscapedBrace {number Foreign} node.
Arguments childNodes {number Foreign} child.
Arguments appendToPath {number Foreign} path append.

Lemma prepareJsxText_escapes_every_brace_witness :
  alternatingNodes isEscapedBrace
    (childNodes (prepareJsxText (number := nat) (Foreign := unit) "a: {b}"))
  = true.
Proof.
  exact (@prepareJsxText_escapes_every_brace nat unit "a: {b}" eq_refl).
Defined.

Lemma resolveExpression_errors_witness :
  resolveExpression (Foreign := unit)
    (fun n : nat => String.concat "" (repeat "1" n))
    (SubExpression (PathExpression (mkPath "f" ["f"]))
       [PathExpression (mkPath "" [])] (mkHash []))
  = Throw EmptyParts
  /\ (@EmptyParts nat = EmptyParts
      \/ exists type original,
          @EmptyParts nat
          = UnexpectedExpression (OtherExpression type original)).
Proof.
  split; [reflexivity|].
  exact (@resolveExpression_errors nat unit
           (fun n : nat => String.concat "" (repeat "1" n))
           (SubExpression (PathExpression (mkPath "f" ["f"]))
              [PathExpression (mkPath "" [])] (mkHash []))
           EmptyParts eq_refl).
Defined.

Lemma appendToPath_createPath_witness :
  createPath (number := nat) (Foreign := unit) (mkPath "a.b.c" ["a"; "b"; "c"])
  = Return (appendToPath
              (memberExpression (identifier "a") (identifier "b"))
              (identifier "c")).
Proof.
  exact (@appendToPath_createPath nat unit (mkPath "a.b" ["a"; "b"])
           (memberExpression (identifier "a") (identifier "b"))
           "a.b.c" "c" eq_refl).
Defined.


Lemma createConcat_first_failure_witness :
  createConcat (Element := unit) (Block := unit) (Foreign := unit)
    (fun n : nat => String.concat "" (repeat "1" n))
    (fun _ => Throw (OtherError "element"))
    (fun _ => Throw (OtherError "block"))
    [TextNode "a";
     MustacheStatement (PathExpression (mkPath "" [])) [] (mkHash []);
     CommentStatement "never reached"]
  = Throw EmptyParts.
Proof.
  apply (@createConcat_first_failure nat unit unit unit
           (fun n : nat => String.concat "" (repeat "1" n))
           (fun _ => Throw (OtherError "element"))
           (fun _ => Throw (OtherError "block"))
           [TextNode "a"]
           (MustacheStatement (PathExpression (mkPath "" [])) [] (mkHash []))
           [CommentStatement "never reached"]
           EmptyParts).
  - constructor; [|constructor]. exists (stringLiteral "a"). reflexivity.
  - reflexivity.
Defined.

Lemma createRootChildren_comment_witness :
  createRootChildren (Element := unit) (Block := unit) (Foreign := unit)
    (fun n : nat => String.concat "" (repeat "1" n))
    (fun _ => Throw (OtherError "element"))
    (fun children => Return (objectExpression children))
    (fun _ => Throw (OtherError "block"))
    (fun _ => Return (jsxExpressionContainer (stringLiteral "note")))
    [CommentStatement "note"]
  = Throw TopLevelComment
  /\ createRootChildren (Element := unit) (Block := unit) (Foreign := unit)
       (fun n : nat => String.concat "" (repeat "1" n))
       (fun _ => Throw (OtherError "element"))
       (fun children => Return (objectExpression children))
       (fun _ => Throw (OtherError "block"))
       (fun _ => Return (jsxExpressionContainer (stringLiteral "note")))
       [CommentStatement "note"; TextNode "a"]
     = Return (objectExpression
                 [jsxExpressionContainer (stringLiteral "note");
                  jsxText "a"]).
Proof.
  exact (@createRootChildren_comment nat unit unit unit
           (fun n : nat => String.concat "" (repeat "1" n))
           (fun _ => Throw (OtherError "element"))
           (fun children => Return (objectExpression children))
           (fun _ => Throw (OtherError "block"))
           (fun _ => Return (jsxExpressionContainer (stringLiteral "note")))
           (CommentStatement "note") (TextNode "a") [] eq_refl).
Defined.

Lemma resolveHelper_Return_inv_witness :
  exists args values : list (Node nat unit),
    Forall2 (fun param arg =>
               resolveExpression
                 (fun n : nat => String.concat "" (repeat "1" n)) param
               = Return arg)
            [BooleanLiteral true true] args
    /\ Forall2 (fun pair value =>
                  resolveExpression
                    (fun n : nat => String.concat "" (repeat "1" n))
                    (Glimmer.value pair)
                  = Return value)
               [mkHashPair "k" NullLiteral] values
    /\ callExpression (identifier "t")
         [booleanLiteral true;
          objectExpression
            [objectProperty (stringLiteral "hash")
               (objectExpression
                  [objectProperty (stringLiteral "k") nullLiteral])]]
       = callExpression (identifier "t")
           (args ++ [hashCarrier
                       (hashProperties [mkHashPair "k" NullLiteral] values)]).
Proof.
  exact (@resolveHelper_Return_inv nat unit
           (fun n : nat => String.concat "" (repeat "1" n))
           (PathExpression (mkPath "t" ["t"]))
           [BooleanLiteral true true]
           (mkHash [mkHashPair "k" NullLiteral])
           _ eq_refl).
Defined.
